(** * SettingsModal: the AI settings dialog and its bulk description run

    A shallow embedding of [src/components/SettingsModal.tsx].  The React
    component is modelled by its state (the [useState] cells and the
    [useRef] cell), its props, and its event handlers; the asynchronous
    [handleBulkGenerate] is modelled as a loop that threads the component
    state and the local working copy, and that records every call made to
    the outside world (owner callbacks, browser prompts, the generation
    service) in an event trace. *)

From Stdlib Require Import List String Arith Bool Lia Sorted.
Import ListNotations.
Open Scope string_scope.

(** ** Data model *)

(** Modelled from the spec: the declaration of [AIConfig] lives in
    [../types], which is not among the sources.  The component reads and
    writes the four fields [provider], [apiKey], [baseUrl] and [model], and
    [handleChange] stores a [string] in any of them. *)
Record AIConfig : Type := mkAIConfig {
  provider : string;
  apiKey : string;
  baseUrl : string;
  model : string
}.

(** [keyof AIConfig] *)
Inductive AIConfigKey : Type := Kprovider | KapiKey | KbaseUrl | Kmodel.

(** Modelled from the spec: the declaration of [LinkItem] lives in
    [../types], which is not among the sources.  The component uses [id],
    [title], [url] and the optional [description]. *)
Record LinkItem : Type := mkLinkItem {
  id : string;
  title : string;
  url : string;
  description : option string
}.

(** [{ current, total }] of the [progress] state cell. *)
Record Progress : Type := mkProgress { current : nat; total : nat }.

(** The component's own state: three [useState] cells and one [useRef]. *)
Record State : Type := mkState {
  localConfig : AIConfig;
  isProcessing : bool;
  progress : Progress;
  shouldStopRef : bool
}.

(** The data props.  The callback props [onClose], [onSave] and
    [onUpdateLinks] are modelled by the events below. *)
Record Props : Type := mkProps {
  isOpen : bool;
  config : AIConfig;
  links : list LinkItem
}.

(** What a call of [generateLinkDescription] does once awaited. *)
Inductive Outcome : Type :=
| Resolved (desc : string)
| Rejected.

(** Calls that leave the component, and the progress the view is told to
    show ([SetProgress] stands for a [setProgress] made by the handler). *)
Inductive Event : Type :=
| Alert (msg : string)
| Confirm (count : nat)
| OnSave (c : AIConfig)
| OnClose
| OnUpdateLinks (ls : list LinkItem)
| GenerateLinkDescription (t u : string) (c : AIConfig)
| ConsoleError (t : string)
| SetProgress (p : Progress).

(** What can run while the loop is suspended on an [await], that is, what
    else writes the state cells: the user presses the stop button, the
    user edits a field, React runs the effect of the component after a
    render with the given props, or another call of [handleBulkGenerate]
    writes its cells.  The start button is shown again as soon as
    [handleStop] has cleared [isProcessing], so the user can click it
    while this run is still suspended.  A second call that ends at a
    notice or at a declined confirmation writes no cell; one that gets
    past its checks, finding [count] links without description, writes
    the three cells as [StartAgain count] does, each resolved call of it
    sets a progress ([OtherProgress]), and its end clears [isProcessing]
    ([OtherEnds]).  The calls that other run makes belong to its own
    trace, not to the trace of this run. *)
Inductive Interrupt : Type :=
| PressStop
| Edit (key : AIConfigKey) (value : string)
| RunEffect (p : Props)
| StartAgain (count : nat)
| OtherProgress (q : Progress)
| OtherEnds.

(** ** JavaScript truthiness of the values the component tests *)

(** [!!s] for a string *)
Definition truthy (s : string) : bool := negb (String.eqb s "").

(** [!!d] for [string | undefined] *)
Definition truthyOpt (d : option string) : bool :=
  match d with
  | Some s => truthy s
  | None => false
  end.

(** ** State setters *)

Definition setLocalConfig (c : AIConfig) (st : State) : State :=
  mkState c (isProcessing st) (progress st) (shouldStopRef st).

Definition setIsProcessing (b : bool) (st : State) : State :=
  mkState (localConfig st) b (progress st) (shouldStopRef st).

Definition setProgress (p : Progress) (st : State) : State :=
  mkState (localConfig st) (isProcessing st) p (shouldStopRef st).

Definition setShouldStop (b : bool) (st : State) : State :=
  mkState (localConfig st) (isProcessing st) (progress st) b.

(** ** The effect, [handleChange], [handleSave], cancel, [handleStop] *)

(** Body of the effect. *)
Definition useEffect (p : Props) (st : State) : State :=
  if isOpen p then
    setShouldStop false
      (setProgress (mkProgress 0 0)
         (setIsProcessing false (setLocalConfig (config p) st)))
  else st.

(** The effect's dependency list is [[isOpen, config]]; [sameConfig] tells
    whether the [config] prop is the same object as at the previous
    render. *)
Definition depsChanged (prev next : Props) (sameConfig : bool) : bool :=
  negb (Bool.eqb (isOpen prev) (isOpen next)) || negb sameConfig.

(** A render with new props, followed by the effect when a dependency
    changed. *)
Definition rerender (prev next : Props) (sameConfig : bool) (st : State)
  : State :=
  if depsChanged prev next sameConfig then useEffect next st else st.

(** [{ ...prev, [key]: value }] *)
Definition setField (key : AIConfigKey) (value : string) (c : AIConfig)
  : AIConfig :=
  match key with
  | Kprovider => mkAIConfig value (apiKey c) (baseUrl c) (model c)
  | KapiKey => mkAIConfig (provider c) value (baseUrl c) (model c)
  | KbaseUrl => mkAIConfig (provider c) (apiKey c) value (model c)
  | Kmodel => mkAIConfig (provider c) (apiKey c) (baseUrl c) value
  end.

(** [c[key]] *)
Definition getField (key : AIConfigKey) (c : AIConfig) : string :=
  match key with
  | Kprovider => provider c
  | KapiKey => apiKey c
  | KbaseUrl => baseUrl c
  | Kmodel => model c
  end.

Definition handleChange (key : AIConfigKey) (value : string) (st : State)
  : State :=
  setLocalConfig (setField key value (localConfig st)) st.

Definition handleSave (st : State) : State * list Event :=
  (st, [OnSave (localConfig st); OnClose]).

(** The cancel button and the X button call the [onClose] prop directly. *)
Definition handleCancel (st : State) : State * list Event :=
  (st, [OnClose]).

Definition handleStop (st : State) : State :=
  setIsProcessing false (setShouldStop true st).

Definition interrupt (x : Interrupt) (st : State) : State :=
  match x with
  | PressStop => handleStop st
  | Edit key value => handleChange key value st
  | RunEffect p => useEffect p st
  | StartAgain count =>
    setProgress (mkProgress 0 count)
      (setShouldStop false (setIsProcessing true st))
  | OtherProgress q => setProgress q st
  | OtherEnds => setIsProcessing false st
  end.

Definition interrupts (xs : list Interrupt) (st : State) : State :=
  fold_left (fun s x => interrupt x s) xs st.

(** ** [handleBulkGenerate] *)

(** [{ ...l, description: desc }] *)
Definition withDescription (l : LinkItem) (desc : string) : LinkItem :=
  mkLinkItem (id l) (title l) (url l) (Some desc).

(** [currentLinks.map(l => l.id === link.id ? {...l, description: desc} : l)] *)
Definition updateLink (link : LinkItem) (desc : string)
  (currentLinks : list LinkItem) : list LinkItem :=
  map (fun l => if String.eqb (id l) (id link) then withDescription l desc
                else l) currentLinks.

(** [links.filter(l => !l.description)] *)
Definition missingLinks (ls : list LinkItem) : list LinkItem :=
  filter (fun l => negb (truthyOpt (description l))) ls.

Definition alertNoApiKey : string := "请先配置并保存 API Key".
Definition alertNothingMissing : string := "所有链接都已有描述！".

(** What [handleBulkGenerate] leaves behind: the component state when its
    promise settles, the local [currentLinks], and the trace. *)
Record Run : Type := mkRun {
  after : State;
  working : list LinkItem;
  trace : list Event
}.

Definition emit (evs : list Event) (r : Run) : Run :=
  mkRun (after r) (working r) (evs ++ trace r).

Section Collaborators.

(** The generation service: the answer to the [i]-th call of a run, for
    the arguments it is called with. *)
Variable generateLinkDescription :
  nat -> string -> string -> AIConfig -> Outcome.

(** What happens in the dialog while the [i]-th call is awaited. *)
Variable during : nat -> list Interrupt.

(** The user's answer to [confirm], shown the count of missing links. *)
Variable confirm : nat -> bool.

(** The [for] loop from index [i] on, [rest] being [missingLinks.slice(i)].
    [cfg] is the [localConfig] the handler closed over and [n] is
    [missingLinks.length]. *)
Fixpoint bulkLoop (cfg : AIConfig) (n i : nat) (rest : list LinkItem)
  (st : State) (currentLinks : list LinkItem) : Run :=
  match rest with
  | [] => mkRun st currentLinks []
  | link :: rest' =>
    if shouldStopRef st then mkRun st currentLinks []
    else
      let call := GenerateLinkDescription (title link) (url link) cfg in
      let st1 := interrupts (during i) st in
      match generateLinkDescription i (title link) (url link) cfg with
      | Resolved desc =>
        let currentLinks' := updateLink link desc currentLinks in
        let p := mkProgress (i + 1) n in
        emit [call; OnUpdateLinks currentLinks'; SetProgress p]
          (bulkLoop cfg n (S i) rest' (setProgress p st1) currentLinks')
      | Rejected =>
        emit [call; ConsoleError (title link)]
          (bulkLoop cfg n (S i) rest' st1 currentLinks)
      end
  end.

(** The handler.  When the run does not start, [working] is the [links]
    prop. *)
Definition handleBulkGenerate (p : Props) (st : State) : Run :=
  if negb (truthy (apiKey (localConfig st))) then
    mkRun st (links p) [Alert alertNoApiKey]
  else
    let missing := missingLinks (links p) in
    if Nat.eqb (List.length missing) 0 then
      mkRun st (links p) [Alert alertNothingMissing]
    else if negb (confirm (List.length missing)) then
      mkRun st (links p) [Confirm (List.length missing)]
    else
      let p0 := mkProgress 0 (List.length missing) in
      let st1 :=
        setProgress p0 (setShouldStop false (setIsProcessing true st)) in
      let r :=
        bulkLoop (localConfig st) (List.length missing) 0 missing st1
          (links p) in
      mkRun (setIsProcessing false (after r)) (working r)
        (Confirm (List.length missing) :: SetProgress p0 :: trace r).

End Collaborators.

(** ** Reading a trace *)

(** The collections handed to [onUpdateLinks], in order. *)
Fixpoint published (evs : list Event) : list (list LinkItem) :=
  match evs with
  | [] => []
  | OnUpdateLinks ls :: evs' => ls :: published evs'
  | _ :: evs' => published evs'
  end.

(** The arguments handed to the generation service, in order. *)
Fixpoint attempted (evs : list Event) : list (string * string * AIConfig) :=
  match evs with
  | [] => []
  | GenerateLinkDescription t u c :: evs' => (t, u, c) :: attempted evs'
  | _ :: evs' => attempted evs'
  end.

(** The configurations handed to [onSave], in order. *)
Fixpoint saved (evs : list Event) : list AIConfig :=
  match evs with
  | [] => []
  | OnSave c :: evs' => c :: saved evs'
  | _ :: evs' => saved evs'
  end.

(** The notices shown with [alert], in order. *)
Fixpoint alerts (evs : list Event) : list string :=
  match evs with
  | [] => []
  | Alert m :: evs' => m :: alerts evs'
  | _ :: evs' => alerts evs'
  end.

(** Each published collection with the progress set right after it. *)
Fixpoint reports (evs : list Event) : list (list LinkItem * Progress) :=
  match evs with
  | [] => []
  | OnUpdateLinks ls :: evs' =>
    match evs' with
    | SetProgress p :: _ => (ls, p) :: reports evs'
    | _ => reports evs'
    end
  | _ :: evs' => reports evs'
  end.

(** Modelled from the spec: the owner of the link collection is not among
    the sources; [updateLinks] republishes the full collection, so the
    owner's collection after a trace is the last one published, or the one
    it had when nothing was published. *)
Definition ownerLinks (ls : list LinkItem) (evs : list Event)
  : list LinkItem :=
  last (published evs) ls.

(** ** What the loop computes, told without the loop *)

(** The value of [shouldStopRef.current] after the interrupts [w], from
    the value [b] before them. *)
Definition flagAfter (w : list Interrupt) (b : bool) : bool :=
  fold_left (fun b x =>
    match x with
    | PressStop => true
    | Edit _ _ => b
    | RunEffect p => if isOpen p then false else b
    | StartAgain _ => false
    | OtherProgress _ => b
    | OtherEnds => b
    end) w b.

Section Told.

Variable generateLinkDescription :
  nat -> string -> string -> AIConfig -> Outcome.
Variable during : nat -> list Interrupt.
Variable cfg : AIConfig.

(** How many iterations run from index [i] when [len] items remain and the
    stop flag is [flag]. *)
Fixpoint ran (i len : nat) (flag : bool) : nat :=
  match len with
  | 0 => 0
  | S len' =>
    if flag then 0 else S (ran (S i) len' (flagAfter (during i) false))
  end.

(** The items whose call resolves, with the description it resolves to,
    when the items are attempted from index [i]. *)
Fixpoint fills (i : nat) (items : list LinkItem)
  : list (LinkItem * string) :=
  match items with
  | [] => []
  | link :: items' =>
    match generateLinkDescription i (title link) (url link) cfg with
    | Resolved desc => (link, desc) :: fills (S i) items'
    | Rejected => fills (S i) items'
    end
  end.

End Told.

(** The working copy after the updates [fs], oldest first. *)
Definition patch (cl : list LinkItem) (fs : list (LinkItem * string))
  : list LinkItem :=
  fold_left (fun c f => updateLink (fst f) (snd f) c) fs cl.

(** The working copy after each of the updates [fs]. *)
Fixpoint snapshots (cl : list LinkItem) (fs : list (LinkItem * string))
  : list (list LinkItem) :=
  match fs with
  | [] => []
  | f :: fs' =>
    updateLink (fst f) (snd f) cl
      :: snapshots (updateLink (fst f) (snd f) cl) fs'
  end.

(** The call made for an item. *)
Definition callFor (cfg : AIConfig) (l : LinkItem)
  : string * string * AIConfig :=
  (title l, url l, cfg).

(** [xs] keeps some of the elements of [ys], in the order of [ys]. *)
Inductive Subseq {A : Type} : list A -> list A -> Prop :=
| Subseq_nil : Subseq [] []
| Subseq_skip x xs ys : Subseq xs ys -> Subseq xs (x :: ys)
| Subseq_take x xs ys : Subseq xs ys -> Subseq (x :: xs) (x :: ys).

(** The shape of the trace of the loop over [rest] from index [i], the
    working copy being [cl]: one turn per item, in the order of [rest]; a
    turn is the call, then either the publish of the updated copy and the
    new progress, or the error log.  The loop may leave before any turn. *)
Inductive Turns
  (generateLinkDescription : nat -> string -> string -> AIConfig -> Outcome)
  (cfg : AIConfig) (n : nat)
  : nat -> list LinkItem -> list LinkItem -> list Event -> Prop :=
| Turns_left i rest cl :
    Turns generateLinkDescription cfg n i rest cl []
| Turns_resolved i link rest cl desc evs :
    generateLinkDescription i (title link) (url link) cfg = Resolved desc ->
    Turns generateLinkDescription cfg n (S i) rest (updateLink link desc cl)
      evs ->
    Turns generateLinkDescription cfg n i (link :: rest) cl
      (GenerateLinkDescription (title link) (url link) cfg
         :: OnUpdateLinks (updateLink link desc cl)
         :: SetProgress (mkProgress (i + 1) n) :: evs)
| Turns_rejected i link rest cl evs :
    generateLinkDescription i (title link) (url link) cfg = Rejected ->
    Turns generateLinkDescription cfg n (S i) rest cl evs ->
    Turns generateLinkDescription cfg n i (link :: rest) cl
      (GenerateLinkDescription (title link) (url link) cfg
         :: ConsoleError (title link) :: evs).

(** The run starts: a key is set in the draft, some link lacks a
    description, and the user confirms. *)
Definition starts (confirm : nat -> bool) (p : Props) (st : State) : Prop :=
  truthy (apiKey (localConfig st)) = true /\
  missingLinks (links p) <> [] /\
  confirm (List.length (missingLinks (links p))) = true.

(** The stop button is not pressed during the run. *)
Definition noStop (during : nat -> list Interrupt) : Prop :=
  forall i, ~ In PressStop (during i).

(** The draft after the edits [es], oldest first. *)
Definition applyEdits (es : list (AIConfigKey * string)) (c : AIConfig)
  : AIConfig :=
  fold_left (fun c e => setField (fst e) (snd e) c) es c.

(** The component after the user made the edits [es]. *)
Definition typeEdits (es : list (AIConfigKey * string)) (st : State)
  : State :=
  fold_left (fun s e => handleChange (fst e) (snd e) s) es st.

Definition AIConfigKey_eqb (a b : AIConfigKey) : bool :=
  match a, b with
  | Kprovider, Kprovider | KapiKey, KapiKey
  | KbaseUrl, KbaseUrl | Kmodel, Kmodel => true
  | _, _ => false
  end.

(** What [updateLink link desc] does to one item. *)
Definition updatedFrom (link : LinkItem) (desc : string) (l l' : LinkItem)
  : Prop :=
  id l' = id l /\ title l' = title l /\ url l' = url l /\
  description l' =
    if String.eqb (id l) (id link) then Some desc else description l.

(** Two collections with the same items up to their descriptions. *)
Definition sameItems (ls ls' : list LinkItem) : Prop :=
  map id ls' = map id ls /\ map title ls' = map title ls /\
  map url ls' = map url ls.

(** The id of the item an update is for. *)
Definition fillId (f : LinkItem * string) : string := id (fst f).

(** Every call for [items], attempted from index [i], resolves. *)
Definition allResolve
  (generateLinkDescription : nat -> string -> string -> AIConfig -> Outcome)
  (cfg : AIConfig) (i : nat) (items : list LinkItem) : Prop :=
  forall j link, nth_error items j = Some link ->
    exists desc,
      generateLinkDescription (i + j) (title link) (url link) cfg
        = Resolved desc.

(** ** Sample inputs *)

Module Sample.

Definition cfgKey : AIConfig :=
  mkAIConfig "gemini" "sk-1" "" "gemini-2.5-flash".

Definition cfgNoKey : AIConfig := mkAIConfig "gemini" "" "" "".

Definition linkA : LinkItem := mkLinkItem "1" "A" "https://a.example" None.
Definition linkB : LinkItem := mkLinkItem "2" "B" "https://b.example" None.
Definition linkC : LinkItem :=
  mkLinkItem "3" "C" "https://c.example" (Some "").
Definition linkD : LinkItem :=
  mkLinkItem "4" "D" "https://d.example" (Some "described").

(** The dialog just opened on the owner's configuration [c]. *)
Definition opened (c : AIConfig) : State :=
  mkState c false (mkProgress 0 0) false.

Definition propsOf (c : AIConfig) (ls : list LinkItem) : Props :=
  mkProps true c ls.

Definition genAll (i : nat) (t u : string) (c : AIConfig) : Outcome :=
  Resolved ("about " ++ t).

Definition genFailB (i : nat) (t u : string) (c : AIConfig) : Outcome :=
  if String.eqb t "B" then Rejected else Resolved ("about " ++ t).

Definition quiet (i : nat) : list Interrupt := [].


Definition yes (count : nat) : bool := true.

Definition no (count : nat) : bool := false.

(** The service answers with the empty string for B. *)
Definition genEmptyB (i : nat) (t u : string) (c : AIConfig) : Outcome :=
  if String.eqb t "B" then Resolved "" else Resolved ("about " ++ t).

(** During the first call the user presses stop, and then the effect runs
    with the dialog open. *)
Definition stopThenEffect (i : nat) : list Interrupt :=
  if Nat.eqb i 0 then [PressStop; RunEffect (propsOf cfgKey [])] else [].



(** What an interrupted earlier run can leave behind. *)
Definition leftover (c : AIConfig) : State :=
  mkState c false (mkProgress 1 3) true.

End Sample.

(** ** More readers of a trace, and of the state *)

(** The progress values set by the handler, in order. *)
Fixpoint progresses (evs : list Event) : list Progress :=
  match evs with
  | [] => []
  | SetProgress p :: evs' => p :: progresses evs'
  | _ :: evs' => progresses evs'
  end.

(** The titles logged with [console.error], in order. *)
Fixpoint logged (evs : list Event) : list string :=
  match evs with
  | [] => []
  | ConsoleError t :: evs' => t :: logged evs'
  | _ :: evs' => logged evs'
  end.

(** The state the effect leaves when the dialog is open on [c]. *)
Definition fresh (c : AIConfig) : State :=
  mkState c false (mkProgress 0 0) false.

(** What the successive updates [fs] make of one item. *)
Definition patchItem (fs : list (LinkItem * string)) (l : LinkItem)
  : LinkItem :=
  fold_left (fun l f =>
    if String.eqb (id l) (id (fst f)) then withDescription l (snd f) else l)
    fs l.

(** Every call for [items], attempted from index [i], resolves to a
    string that is not empty. *)
Definition allDescribe
  (generateLinkDescription : nat -> string -> string -> AIConfig -> Outcome)
  (cfg : AIConfig) (i : nat) (items : list LinkItem) : Prop :=
  forall j link, nth_error items j = Some link ->
    exists desc,
      generateLinkDescription (i + j) (title link) (url link) cfg
        = Resolved desc /\ truthy desc = true.

(** When each awaited call settles, the stop flag is down. *)
Definition flagDown (during : nat -> list Interrupt) : Prop :=
  forall i, flagAfter (during i) false = false.

(** * Proofs *)

(** ** Lists *)

Lemma Subseq_filter {A : Type} (f : A -> bool) (l : list A) :
  Subseq (filter f l) l.
Proof.
  induction l as [|x l IH]; simpl; [constructor|].
  destruct (f x); constructor; exact IH.
Qed.

Lemma Subseq_firstn {A : Type} (m : nat) (l : list A) :
  Subseq (firstn m l) l.
Proof.
  revert m; induction l as [|x l IH]; intros [|m]; simpl.
  - constructor.
  - constructor.
  - constructor; apply (IH 0).
  - constructor; apply IH.
Qed.

Lemma Subseq_In {A : Type} (xs ys : list A) (x : A) :
  Subseq xs ys -> In x xs -> In x ys.
Proof.
  induction 1; simpl; intuition.
Qed.

Lemma Subseq_map {A B : Type} (f : A -> B) (xs ys : list A) :
  Subseq xs ys -> Subseq (map f xs) (map f ys).
Proof. induction 1; simpl; constructor; assumption. Qed.

Lemma Subseq_NoDup {A : Type} (xs ys : list A) :
  Subseq xs ys -> NoDup ys -> NoDup xs.
Proof.
  induction 1; intros N; [constructor| |]; inversion N; subst; auto.
  constructor; auto.
  intros I; eapply Subseq_In in I; eauto.
Qed.

(** ** State cells *)

Lemma interrupts_flag (w : list Interrupt) (st : State) :
  shouldStopRef (interrupts w st) = flagAfter w (shouldStopRef st).
Proof.
  unfold interrupts, flagAfter; revert st.
  induction w as [|x w IH]; intros st; simpl; [reflexivity|].
  rewrite IH; f_equal.
  destruct x as [| |p| | |]; simpl; try reflexivity.
  unfold useEffect; destruct (isOpen p); reflexivity.
Qed.

Lemma flagAfter_quiet (w : list Interrupt) :
  ~ In PressStop w -> flagAfter w false = false.
Proof.
  unfold flagAfter; induction w as [|x w IH]; simpl; intros N;
    [reflexivity|].
  destruct x as [| |p| | |]; [tauto|..]; try (apply IH; tauto).
  destruct (isOpen p); apply IH; tauto.
Qed.


(** ** The update of the working copy *)

Lemma updateLink_updatedFrom link desc cl :
  Forall2 (updatedFrom link desc) cl (updateLink link desc cl).
Proof.
  unfold updateLink; induction cl as [|l cl IH]; simpl; constructor; auto.
  unfold updatedFrom; destruct (String.eqb (id l) (id link)); simpl; auto.
Qed.

Lemma updateLink_sameItems link desc cl :
  sameItems cl (updateLink link desc cl).
Proof.
  unfold sameItems, updateLink; rewrite !map_map.
  repeat split; apply map_ext; intros l;
    destruct (String.eqb (id l) (id link)); reflexivity.
Qed.

Lemma sameItems_refl ls : sameItems ls ls.
Proof. unfold sameItems; auto. Qed.

Lemma sameItems_trans a b c :
  sameItems a b -> sameItems b c -> sameItems a c.
Proof.
  unfold sameItems; intros (H1 & H2 & H3) (K1 & K2 & K3).
  repeat split; congruence.
Qed.

Lemma updateLink_keeps link desc cl l :
  In l cl -> id l <> id link -> In l (updateLink link desc cl).
Proof.
  intros I N; unfold updateLink; apply in_map_iff; exists l; split; auto.
  destruct (String.eqb_spec (id l) (id link)); [contradiction|reflexivity].
Qed.

Lemma updateLink_fills link desc cl l :
  In l cl -> id l = id link -> In (withDescription l desc)
                                  (updateLink link desc cl).
Proof.
  intros I E; unfold updateLink; apply in_map_iff; exists l; split; auto.
  rewrite E, String.eqb_refl; reflexivity.
Qed.

(** ** Successive updates *)

Lemma last_cons {A : Type} (a d : A) (l : list A) :
  last (a :: l) d = last l a.
Proof.
  revert a d; induction l as [|b l IH]; intros a d; [reflexivity|].
  change (last (a :: b :: l) d) with (last (b :: l) d).
  rewrite !IH; reflexivity.
Qed.

Lemma snapshots_last cl fs : last (snapshots cl fs) cl = patch cl fs.
Proof.
  revert cl; induction fs as [|f fs IH]; intros cl; [reflexivity|].
  cbn [snapshots]; rewrite last_cons; apply IH.
Qed.

Lemma snapshots_length cl fs :
  List.length (snapshots cl fs) = List.length fs.
Proof.
  revert cl; induction fs as [|f fs IH]; intros cl; simpl; auto.
Qed.

Lemma patch_sameItems cl fs : sameItems cl (patch cl fs).
Proof.
  revert cl; induction fs as [|f fs IH]; intros cl; simpl.
  - apply sameItems_refl.
  - eapply sameItems_trans; [apply updateLink_sameItems | apply IH].
Qed.

Lemma snapshots_sameItems cl fs : Forall (sameItems cl) (snapshots cl fs).
Proof.
  revert cl; induction fs as [|f fs IH]; intros cl; simpl; constructor.
  - apply updateLink_sameItems.
  - eapply Forall_impl; [|apply IH].
    intros ls; apply sameItems_trans, updateLink_sameItems.
Qed.

Lemma snapshots_keep cl fs l :
  In l cl -> ~ In (id l) (map fillId fs) -> Forall (In l) (snapshots cl fs).
Proof.
  revert cl; induction fs as [|f fs IH]; intros cl I N; simpl;
    constructor; simpl in N.
  - apply updateLink_keeps; auto.
  - apply IH; [apply updateLink_keeps|]; auto.
Qed.

Lemma patch_keeps cl fs l :
  In l cl -> ~ In (id l) (map fillId fs) -> In l (patch cl fs).
Proof.
  revert cl; induction fs as [|f fs IH]; intros cl I N; simpl; auto.
  simpl in N; apply IH; [apply updateLink_keeps|]; auto.
Qed.

Lemma patch_fills cl fs link desc l :
  NoDup (map fillId fs) -> In (link, desc) fs -> In l cl ->
  id l = id link -> In (withDescription l desc) (patch cl fs).
Proof.
  revert cl; induction fs as [|f fs IH]; intros cl N I Il E; [destruct I|].
  simpl in N; inversion N as [|k ks Nk Nks]; subst.
  destruct I as [->|I]; simpl.
  - apply patch_keeps; [apply updateLink_fills; assumption|].
    unfold fillId in Nk; simpl in *; rewrite E; exact Nk.
  - apply IH; auto.
    apply updateLink_keeps; auto.
    intros K; apply Nk; unfold fillId at 1; rewrite <- K, E.
    apply (in_map fillId _ _ I).
Qed.

Lemma nth_error_beyond {A B : Type} (f : A -> B) (items : list A) m j x :
  NoDup (map f items) -> nth_error items j = Some x -> m <= j ->
  ~ In (f x) (map f (firstn m items)).
Proof.
  revert m j; induction items as [|y items IH]; intros m j N E L.
  - destruct j; discriminate.
  - destruct m as [|m]; [simpl; tauto|].
    destruct j as [|j]; [lia|]; simpl in *.
    inversion N as [|k ks Nk Nks]; subst.
    intros [K|K].
    + apply Nk; rewrite K; apply in_map; eapply nth_error_In; eauto.
    + apply (IH m j Nks E); [lia | exact K].
Qed.

Section FillsFacts.

Variable generateLinkDescription :
  nat -> string -> string -> AIConfig -> Outcome.
Variable cfg : AIConfig.

Local Abbreviation fillsFrom := (fills generateLinkDescription cfg).

Lemma fills_Subseq i items : Subseq (map fst (fillsFrom i items)) items.
Proof.
  revert i; induction items as [|link items IH]; intros i; simpl;
    [constructor|].
  destruct (generateLinkDescription i (title link) (url link) cfg);
    simpl; constructor; apply IH.
Qed.

Lemma fills_ids i items :
  Subseq (map fillId (fillsFrom i items)) (map id items).
Proof.
  replace (map fillId (fillsFrom i items)) with (map id (map fst (fillsFrom i items)))
    by (rewrite map_map; reflexivity).
  apply Subseq_map, fills_Subseq.
Qed.

Lemma fills_NoDup i items :
  NoDup (map id items) -> NoDup (map fillId (fillsFrom i items)).
Proof. apply Subseq_NoDup, fills_ids. Qed.

Lemma fills_resolved i items j link desc :
  nth_error items j = Some link ->
  generateLinkDescription (i + j) (title link) (url link) cfg
    = Resolved desc ->
  In (link, desc) (fillsFrom i items).
Proof.
  revert i j; induction items as [|x items IH]; intros i j E G.
  - destruct j; discriminate.
  - destruct j as [|j]; simpl in *.
    + injection E as ->; rewrite Nat.add_0_r in G; rewrite G; left;
        reflexivity.
    + assert (I : In (link, desc) (fillsFrom (S i) items)).
      { apply (IH (S i) j); auto.
        replace (S i + j) with (i + S j) by lia; exact G. }
      destruct (generateLinkDescription i (title x) (url x) cfg);
        [right|]; exact I.
Qed.

Lemma fills_rejected i items j link :
  NoDup (map id items) -> nth_error items j = Some link ->
  generateLinkDescription (i + j) (title link) (url link) cfg = Rejected ->
  ~ In (id link) (map fillId (fillsFrom i items)).
Proof.
  revert i j; induction items as [|x items IH]; intros i j N E G.
  - destruct j; discriminate.
  - inversion N as [|k ks Nk Nks]; subst.
    destruct j as [|j]; simpl in *.
    + injection E as ->; rewrite Nat.add_0_r in G; rewrite G.
      intros K; apply Nk; eapply Subseq_In; [apply fills_ids|exact K].
    + assert (I : ~ In (id link) (map fillId (fillsFrom (S i) items))).
      { apply (IH (S i) j); auto.
        replace (S i + j) with (i + S j) by lia; exact G. }
      destruct (generateLinkDescription i (title x) (url x) cfg); auto.
      simpl; intros [K|K]; [|tauto].
      apply Nk; unfold fillId in K; simpl in K; rewrite K.
      apply in_map; eapply nth_error_In; eauto.
Qed.

Lemma fills_beyond i items m j link :
  NoDup (map id items) -> nth_error items j = Some link -> m <= j ->
  ~ In (id link) (map fillId (fillsFrom i (firstn m items))).
Proof.
  intros N E L K.
  eapply (nth_error_beyond id); eauto.
  eapply Subseq_In; [apply fills_ids|exact K].
Qed.

Local Abbreviation allResolve :=
  (allResolve generateLinkDescription cfg).

Lemma allResolve_tail i link items :
  allResolve i (link :: items) -> allResolve (S i) items.
Proof.
  intros A j l E; destruct (A (S j) l E) as [d G]; exists d.
  replace (S i + j) with (i + S j) by lia; exact G.
Qed.

Lemma allResolve_fills i items :
  allResolve i items -> List.length (fillsFrom i items) = List.length items.
Proof.
  revert i; induction items as [|link items IH]; intros i A;
    [reflexivity|]; simpl.
  destruct (A 0 link eq_refl) as [d G]; rewrite Nat.add_0_r in G;
    rewrite G; simpl; f_equal; apply IH; eapply allResolve_tail; eauto.
Qed.

End FillsFacts.

Section RanFacts.

Variable during : nat -> list Interrupt.

Local Abbreviation ranFrom := (ran during).

Lemma ran_le i len flag : ranFrom i len flag <= len.
Proof.
  revert i flag; induction len as [|len IH]; intros i flag; simpl;
    [lia|].
  destruct flag; [lia|]; specialize (IH (S i) (flagAfter (during i) false));
    lia.
Qed.

Lemma ran_noStop i len : noStop during -> ranFrom i len false = len.
Proof.
  intros Q; revert i; induction len as [|len IH]; intros i; simpl;
    [reflexivity|].
  rewrite flagAfter_quiet by apply Q; rewrite IH; reflexivity.
Qed.


End RanFacts.

(** ** The loop *)

Section LoopFacts.

Variable generateLinkDescription :
  nat -> string -> string -> AIConfig -> Outcome.
Variable during : nat -> list Interrupt.
Variable cfg : AIConfig.
Variable n : nat.

Local Abbreviation fillsFrom := (fills generateLinkDescription cfg).
Local Abbreviation ranFrom := (ran during).
Local Abbreviation loop :=
  (bulkLoop generateLinkDescription during cfg n).

(** One iteration of the loop, by cases on the flag and on the outcome of
    the call. *)
Ltac turn i link st F G :=
  cbn [bulkLoop List.length];
  destruct (shouldStopRef st) eqn:F;
  cbn [ran firstn fills];
  [ | destruct (generateLinkDescription i (title link) (url link) cfg)
        eqn:G ];
  cbn [emit trace working after app published attempted reports map
       snapshots patch fold_left fst snd].

Lemma setProgress_flag p st :
  shouldStopRef (setProgress p st) = shouldStopRef st.
Proof. reflexivity. Qed.

Lemma bulkLoop_stopped i rest st cl :
  shouldStopRef st = true -> loop i rest st cl = mkRun st cl [].
Proof. intros F; destruct rest; simpl; [|rewrite F]; reflexivity. Qed.

Lemma bulkLoop_attempted i rest st cl :
  attempted (trace (loop i rest st cl)) =
  map (callFor cfg)
    (firstn (ranFrom i (List.length rest) (shouldStopRef st)) rest).
Proof.
  revert i st cl; induction rest as [|link rest IH]; intros i st cl;
    [reflexivity|].
  turn i link st F G; [reflexivity| |];
    rewrite IH, ?setProgress_flag, interrupts_flag, F; reflexivity.
Qed.

Lemma bulkLoop_working i rest st cl :
  working (loop i rest st cl) =
  patch cl
    (fillsFrom i (firstn (ranFrom i (List.length rest) (shouldStopRef st)) rest)).
Proof.
  revert i st cl; induction rest as [|link rest IH]; intros i st cl;
    [reflexivity|].
  turn i link st F G; [reflexivity| |];
    rewrite IH, ?setProgress_flag, interrupts_flag, F, ?G; reflexivity.
Qed.

Lemma bulkLoop_published i rest st cl :
  published (trace (loop i rest st cl)) =
  snapshots cl
    (fillsFrom i (firstn (ranFrom i (List.length rest) (shouldStopRef st)) rest)).
Proof.
  revert i st cl; induction rest as [|link rest IH]; intros i st cl;
    [reflexivity|].
  turn i link st F G; [reflexivity| |];
    rewrite IH, ?setProgress_flag, interrupts_flag, F, ?G; reflexivity.
Qed.

Lemma bulkLoop_Turns i rest st cl :
  Turns generateLinkDescription cfg n i rest cl
    (trace (loop i rest st cl)).
Proof.
  revert i st cl; induction rest as [|link rest IH]; intros i st cl;
    [constructor|].
  turn i link st F G.
  - constructor.
  - apply Turns_resolved; [exact G|apply IH].
  - apply Turns_rejected; [exact G|apply IH].
Qed.

Lemma bulkLoop_reports_fst i rest st cl :
  map fst (reports (trace (loop i rest st cl))) =
  published (trace (loop i rest st cl)).
Proof.
  revert i st cl; induction rest as [|link rest IH]; intros i st cl;
    [reflexivity|].
  turn i link st F G; [reflexivity| |]; simpl; rewrite IH; reflexivity.
Qed.

Local Abbreviation allResolve :=
  (allResolve generateLinkDescription cfg).

Lemma bulkLoop_reports_snd i rest st cl :
  noStop during -> shouldStopRef st = false -> allResolve i rest ->
  map snd (reports (trace (loop i rest st cl))) =
  map (fun k => mkProgress k n) (seq (S i) (List.length rest)).
Proof.
  intros Q; revert i st cl; induction rest as [|link rest IH];
    intros i st cl F A; [reflexivity|].
  destruct (A 0 link eq_refl) as [d G]; rewrite Nat.add_0_r in G.
  cbn [bulkLoop]; rewrite F, G.
  cbn [emit trace app reports map snd List.length seq].
  rewrite IH.
  - replace (i + 1) with (S i) by lia; reflexivity.
  - rewrite setProgress_flag, interrupts_flag, F; apply flagAfter_quiet, Q.
  - eapply allResolve_tail; eauto.
Qed.

Lemma bulkLoop_progress i rest st cl :
  noStop during -> shouldStopRef st = false -> allResolve i rest ->
  rest <> [] ->
  progress (after (loop i rest st cl)) =
  mkProgress (i + List.length rest) n.
Proof.
  intros Q; revert i st cl; induction rest as [|link rest IH];
    intros i st cl F A NE; [congruence|].
  destruct (A 0 link eq_refl) as [d G]; rewrite Nat.add_0_r in G.
  cbn [bulkLoop]; rewrite F, G; cbn [emit after].
  destruct rest as [|link' rest].
  - reflexivity.
  - rewrite IH.
    + f_equal; simpl; lia.
    + rewrite setProgress_flag, interrupts_flag, F;
        apply flagAfter_quiet, Q.
    + eapply allResolve_tail; eauto.
    + discriminate.
Qed.

End LoopFacts.

(** ** The handler *)

Section HandlerFacts.

Variable generateLinkDescription :
  nat -> string -> string -> AIConfig -> Outcome.
Variable during : nat -> list Interrupt.
Variable confirm : nat -> bool.
Variable p : Props.
Variable st : State.

Local Abbreviation missing := (missingLinks (links p)).
Local Abbreviation count := (List.length (missingLinks (links p))).

(** The state the loop is entered with. *)
Local Abbreviation entry :=
  (setProgress (mkProgress 0 count)
     (setShouldStop false (setIsProcessing true st))).

Local Abbreviation theLoop :=
  (bulkLoop generateLinkDescription during (localConfig st) count 0 missing
     entry (links p)).

Lemma handleBulkGenerate_starts :
  starts confirm p st ->
  handleBulkGenerate generateLinkDescription during confirm p st =
  mkRun (setIsProcessing false (after theLoop)) (working theLoop)
    (Confirm count :: SetProgress (mkProgress 0 count) :: trace theLoop).
Proof.
  intros (K & M & C); unfold handleBulkGenerate.
  rewrite K, C; simpl negb; cbv iota.
  destruct (missingLinks (links p)) eqn:E; [congruence|reflexivity].
Qed.

Lemma missing_Subseq : Subseq missing (links p).
Proof. apply Subseq_filter. Qed.

Lemma missing_NoDup :
  NoDup (map id (links p)) -> NoDup (map id missing).
Proof. apply Subseq_NoDup, Subseq_map, missing_Subseq. Qed.

Lemma missing_falsy l : In l missing -> truthyOpt (description l) = false.
Proof.
  unfold missingLinks; rewrite filter_In; intros [_ H].
  apply negb_true_iff; exact H.
Qed.

Lemma attempted_count k :
  k <= count ->
  List.length (map (callFor (localConfig st)) (firstn k missing)) = k.
Proof. intros L; rewrite length_map, length_firstn; lia. Qed.

End HandlerFacts.

(** The three ways the handler can go. *)
Lemma handleBulkGenerate_cases generateLinkDescription during confirm p st :
  let r := handleBulkGenerate generateLinkDescription during confirm p st in
  (truthy (apiKey (localConfig st)) = false /\
   r = mkRun st (links p) [Alert alertNoApiKey]) \/
  (truthy (apiKey (localConfig st)) = true /\
   missingLinks (links p) = [] /\
   r = mkRun st (links p) [Alert alertNothingMissing]) \/
  (truthy (apiKey (localConfig st)) = true /\
   missingLinks (links p) <> [] /\
   r = mkRun st (links p)
         [Confirm (List.length (missingLinks (links p)))]) \/
  starts confirm p st.
Proof.
  unfold handleBulkGenerate, starts.
  destruct (truthy (apiKey (localConfig st))); simpl negb; cbv iota;
    [|left; auto].
  destruct (missingLinks (links p)) as [|l ls] eqn:E; simpl;
    [right; left; auto|].
  destruct (confirm (S (List.length ls))); simpl.
  - right; right; right; repeat split; congruence.
  - right; right; left; repeat split; congruence.
Qed.

(** Whatever way the handler goes, it attempts a prefix of the snapshot
    and publishes the working copy after each resolved call. *)
Lemma handleBulkGenerate_told generateLinkDescription during confirm p st :
  let r := handleBulkGenerate generateLinkDescription during confirm p st in
  exists m,
    m <= List.length (missingLinks (links p)) /\
    attempted (trace r) =
      map (callFor (localConfig st)) (firstn m (missingLinks (links p))) /\
    published (trace r) =
      snapshots (links p)
        (fills generateLinkDescription (localConfig st) 0
           (firstn m (missingLinks (links p)))) /\
    working r =
      patch (links p)
        (fills generateLinkDescription (localConfig st) 0
           (firstn m (missingLinks (links p)))).
Proof.
  destruct (handleBulkGenerate_cases generateLinkDescription during confirm
              p st) as [(_ & E)|[(_ & _ & E)|[(_ & _ & E)|S]]];
    cbv zeta in *;
    try (rewrite E; exists 0; repeat split; [lia|reflexivity..]).
  rewrite (handleBulkGenerate_starts _ _ _ _ _ S).
  cbn [trace working published attempted].
  eexists; split; [apply ran_le|].
  rewrite bulkLoop_attempted, bulkLoop_published, bulkLoop_working.
  repeat split.
Qed.

Lemma ownerLinks_working generateLinkDescription during confirm p st :
  let r := handleBulkGenerate generateLinkDescription during confirm p st in
  ownerLinks (links p) (trace r) = working r.
Proof.
  destruct (handleBulkGenerate_told generateLinkDescription during confirm
              p st) as (m & _ & _ & P & W).
  cbv zeta; unfold ownerLinks; rewrite P, W; apply snapshots_last.
Qed.

(** * The claims *)

(** C1 (the code departs from the claim): target set [A, B], the call for
    B is rejected and nobody presses stop.  The progress is set only after
    a publish, so the run ends with progress (1,2), not (2,2). *)
Theorem bulk_progress_after_rejected_call :
  let r :=
    handleBulkGenerate Sample.genFailB Sample.quiet Sample.yes
      (Sample.propsOf Sample.cfgKey [Sample.linkA; Sample.linkB])
      (Sample.opened Sample.cfgKey) in
  attempted (trace r) =
    [callFor Sample.cfgKey Sample.linkA; callFor Sample.cfgKey Sample.linkB]
  /\ progress (after r) = mkProgress 1 2
  /\ progress (after r) <> mkProgress 2 2.
Proof.
  cbv zeta; repeat split; try reflexivity.
  vm_compute; discriminate.
Qed.

(** C8: [handleChange key value] stores [value] in the field [key] of the
    draft and leaves every other field of the draft, and every other state
    cell, as they were. *)
Theorem handleChange_frame (st : State) (key key' : AIConfigKey)
  (value : string) :
  getField key' (localConfig (handleChange key value st)) =
    (if AIConfigKey_eqb key' key then value
     else getField key' (localConfig st)) /\
  isProcessing (handleChange key value st) = isProcessing st /\
  progress (handleChange key value st) = progress st /\
  shouldStopRef (handleChange key value st) = shouldStopRef st.
Proof.
  repeat split; destruct key, key'; reflexivity.
Qed.

(** C9: the update made after a resolved call maps every item of the
    working copy to an item with the same id, title and url, whose
    description is the new one when its id is the target's and the old one
    otherwise; and every collection published by a run has the length of
    the [links] snapshot and the same ids, titles and urls in the same
    order. *)
Theorem updateLink_frame generateLinkDescription during confirm
  (p : Props) (st : State) (link : LinkItem) (desc : string)
  (cl : list LinkItem) :
  Forall2 (updatedFrom link desc) cl (updateLink link desc cl) /\
  Forall (fun l => id l <> id link -> In l (updateLink link desc cl)) cl /\
  Forall (fun ls => List.length ls = List.length (links p) /\
                    sameItems (links p) ls)
    (published
       (trace (handleBulkGenerate generateLinkDescription during confirm
                 p st))).
Proof.
  split; [apply updateLink_updatedFrom|split].
  - apply Forall_forall; intros l I N; apply updateLink_keeps; assumption.
  - destruct (handleBulkGenerate_told generateLinkDescription during
                confirm p st) as (m & _ & _ & P & _).
    cbv zeta in P; rewrite P.
    eapply Forall_impl; [|apply snapshots_sameItems].
    intros ls S; split; [|exact S].
    destruct S as (S & _); rewrite <- (length_map id ls), S.
    apply length_map.
Qed.

(** C5: when the draft has no API key, or when no link lacks a
    description, the handler shows one notice and does nothing else: no
    call of the generation service, no publish, the owner's collection and
    the component state are as before. *)
Theorem bulk_rejected_before_start generateLinkDescription during confirm
  (p : Props) (st : State) :
  truthy (apiKey (localConfig st)) = false \/ missingLinks (links p) = [] ->
  let r := handleBulkGenerate generateLinkDescription during confirm p st in
  (trace r = [Alert alertNoApiKey] \/ trace r = [Alert alertNothingMissing])
  /\ attempted (trace r) = []
  /\ published (trace r) = []
  /\ ownerLinks (links p) (trace r) = links p
  /\ working r = links p
  /\ after r = st.
Proof.
  intros H.
  destruct (handleBulkGenerate_cases generateLinkDescription during confirm
              p st) as [(_ & E)|[(_ & _ & E)|[(K & M & _)|(K & M & _)]]];
    cbv zeta in *.
  - rewrite E; repeat split; left; reflexivity.
  - rewrite E; repeat split; right; reflexivity.
  - destruct H; congruence.
  - destruct H; congruence.
Qed.

Lemma bulk_rejected_before_start_witness :
  let r :=
    handleBulkGenerate Sample.genAll Sample.quiet Sample.yes
      (Sample.propsOf Sample.cfgKey [Sample.linkA; Sample.linkD])
      (Sample.opened Sample.cfgNoKey) in
  trace r = [Alert alertNoApiKey] /\ published (trace r) = [].
Proof.
  cbv zeta.
  destruct (bulk_rejected_before_start Sample.genAll Sample.quiet Sample.yes
              (Sample.propsOf Sample.cfgKey [Sample.linkA; Sample.linkD])
              (Sample.opened Sample.cfgNoKey) (or_introl eq_refl))
    as (_ & _ & P & _).
  split; [reflexivity|exact P].
Defined.

Lemma typeEdits_localConfig es st :
  localConfig (typeEdits es st) = applyEdits es (localConfig st).
Proof.
  unfold typeEdits, applyEdits; revert st.
  induction es as [|e es IH]; intros st; simpl; [reflexivity|].
  rewrite IH; reflexivity.
Qed.

Lemma useEffect_open p st : isOpen p = true ->
  localConfig (useEffect p st) = config p.
Proof. intros O; unfold useEffect; rewrite O; reflexivity. Qed.

(** C7: after the dialog opened on the owner's configuration and the user
    made the edits [es], saving calls [onSave] once, with the edited draft,
    and then [onClose]; cancelling calls [onClose] only, so neither
    [onSave] nor [onUpdateLinks]; and at the next render in which the
    dialog goes from closed to open the draft is the owner's configuration
    of that render, whatever the edits were. *)
Theorem save_commits_cancel_discards (p prev next : Props) (st0 : State)
  (es : list (AIConfigKey * string)) (sameConfig : bool) :
  isOpen p = true -> isOpen prev = false -> isOpen next = true ->
  let st := typeEdits es (useEffect p st0) in
  handleSave st = (st, [OnSave (applyEdits es (config p)); OnClose]) /\
  saved (snd (handleSave st)) = [applyEdits es (config p)] /\
  snd (handleCancel st) = [OnClose] /\
  saved (snd (handleCancel st)) = [] /\
  published (snd (handleCancel st)) = [] /\
  localConfig (rerender prev next sameConfig (fst (handleCancel st)))
    = config next.
Proof.
  intros O C O' st.
  assert (E : localConfig st = applyEdits es (config p)).
  { subst st; rewrite typeEdits_localConfig, useEffect_open; auto. }
  unfold handleSave, handleCancel; simpl; rewrite E.
  repeat split.
  unfold rerender, depsChanged; rewrite C, O'; simpl.
  apply useEffect_open; exact O'.
Qed.

Lemma save_commits_cancel_discards_witness :
  let p := Sample.propsOf Sample.cfgNoKey [Sample.linkA] in
  let st :=
    typeEdits [(KapiKey, "sk-9"); (Kmodel, "m")]
      (useEffect p (Sample.opened Sample.cfgKey)) in
  snd (handleSave st) = [OnSave (mkAIConfig "gemini" "sk-9" "" "m"); OnClose]
  /\ localConfig
       (rerender (mkProps false Sample.cfgNoKey [Sample.linkA]) p true
          (fst (handleCancel st))) = Sample.cfgNoKey.
Proof.
  cbv zeta.
  destruct (save_commits_cancel_discards
              (Sample.propsOf Sample.cfgNoKey [Sample.linkA])
              (mkProps false Sample.cfgNoKey [Sample.linkA])
              (Sample.propsOf Sample.cfgNoKey [Sample.linkA])
              (Sample.opened Sample.cfgKey)
              [(KapiKey, "sk-9"); (Kmodel, "m")] true
              eq_refl eq_refl eq_refl) as (S & _ & _ & _ & _ & R).
  split; [exact (f_equal snd S)|exact R].
Defined.

Lemma attempted_config i rest st cl generateLinkDescription during cfg n :
  Forall (fun a => snd a = cfg)
    (attempted
       (trace (bulkLoop generateLinkDescription during cfg n i rest st cl))).
Proof.
  rewrite bulkLoop_attempted; apply Forall_forall; intros a I.
  apply in_map_iff in I; destruct I as (l & <- & _); reflexivity.
Qed.

Lemma alerts_differ : alertNoApiKey <> alertNothingMissing.
Proof. unfold alertNoApiKey, alertNothingMissing; discriminate. Qed.

(** C10: the run reads the draft, not the [config] prop.  After the dialog
    opened on the owner's configuration and the user made the edits [es]
    (nothing saved), the handler does the same whatever the [config] prop
    is; it stops at the missing-key notice exactly when the edited draft
    has no key; and every call of the generation service is made with the
    edited draft. *)
Theorem bulk_reads_draft generateLinkDescription during confirm
  (p : Props) (st0 : State) (es : list (AIConfigKey * string))
  (c' : AIConfig) :
  isOpen p = true ->
  let st := typeEdits es (useEffect p st0) in
  let r := handleBulkGenerate generateLinkDescription during confirm p st in
  handleBulkGenerate generateLinkDescription during confirm
    (mkProps (isOpen p) c' (links p)) st = r /\
  (truthy (apiKey (applyEdits es (config p))) = false <->
   trace r = [Alert alertNoApiKey]) /\
  Forall (fun a => snd a = applyEdits es (config p)) (attempted (trace r)).
Proof.
  intros O st r.
  assert (E : localConfig st = applyEdits es (config p)).
  { subst st; rewrite typeEdits_localConfig, useEffect_open; auto. }
  rewrite <- E; split; [reflexivity|].
  destruct (handleBulkGenerate_cases generateLinkDescription during confirm
              p st) as [(K & R)|[(K & _ & R)|[(K & _ & R)|S]]];
    fold r in R || idtac.
  - rewrite R; simpl; split; [tauto|constructor].
  - rewrite R, K; simpl; split; [|constructor].
    split; [discriminate|].
    intros A; exfalso; apply alerts_differ; congruence.
  - rewrite R, K; simpl; split; [|constructor].
    split; discriminate.
  - subst r; rewrite (handleBulkGenerate_starts _ _ _ _ _ S).
    destruct S as (K & _); rewrite K; cbn [trace attempted].
    split; [split; discriminate|apply attempted_config].
Qed.

Lemma bulk_reads_draft_witness :
  let p := Sample.propsOf Sample.cfgNoKey [Sample.linkA] in
  let st :=
    typeEdits [(KapiKey, "sk-9")] (useEffect p (Sample.opened Sample.cfgKey))
  in
  attempted
    (trace (handleBulkGenerate Sample.genAll Sample.quiet Sample.yes p st))
  = [("A", "https://a.example", mkAIConfig "gemini" "sk-9" "" "")]
  /\ Forall (fun a => snd a = mkAIConfig "gemini" "sk-9" "" "")
       (attempted
          (trace
             (handleBulkGenerate Sample.genAll Sample.quiet Sample.yes p
                st))).
Proof.
  cbv zeta; split; [reflexivity|].
  exact (proj2 (proj2
    (bulk_reads_draft Sample.genAll Sample.quiet Sample.yes
       (Sample.propsOf Sample.cfgNoKey [Sample.linkA])
       (Sample.opened Sample.cfgKey) [(KapiKey, "sk-9")] Sample.cfgKey
       eq_refl))).
Defined.

(** ** What becomes of each target item *)

Section Items.

Variable generateLinkDescription :
  nat -> string -> string -> AIConfig -> Outcome.
Variable cfg : AIConfig.
Variable items cl : list LinkItem.
Variable m : nat.

Hypothesis items_NoDup : NoDup (map id items).
Hypothesis items_cl : forall l, In l items -> In l cl.

Local Abbreviation fs :=
  (fills generateLinkDescription cfg 0 (firstn m items)).

Lemma firstn_NoDup : NoDup (map id (firstn m items)).
Proof.
  eapply Subseq_NoDup; [apply Subseq_map, Subseq_firstn|exact items_NoDup].
Qed.

Lemma item_beyond j link :
  nth_error items j = Some link -> m <= j ->
  In link (patch cl fs) /\ Forall (In link) (snapshots cl fs).
Proof.
  intros E L.
  assert (I : In link cl) by (eapply items_cl, nth_error_In; eauto).
  assert (N : ~ In (id link) (map fillId fs))
    by (eapply fills_beyond; eauto).
  split; [apply patch_keeps|apply snapshots_keep]; assumption.
Qed.

Lemma item_outcome j link :
  nth_error items j = Some link ->
  match generateLinkDescription j (title link) (url link) cfg with
  | Resolved desc =>
    if Nat.ltb j m then In (withDescription link desc) (patch cl fs)
    else In link (patch cl fs)
  | Rejected => In link (patch cl fs)
  end.
Proof.
  intros E.
  assert (I : In link cl) by (eapply items_cl, nth_error_In; eauto).
  destruct (Nat.ltb_spec j m) as [L|L].
  - assert (E' : nth_error (firstn m items) j = Some link).
    { rewrite nth_error_firstn.
      destruct (Nat.ltb_spec j m); [exact E|lia]. }
    destruct (generateLinkDescription j (title link) (url link) cfg)
      as [desc|] eqn:G.
    + apply patch_fills with (link := link); auto.
      * apply fills_NoDup, firstn_NoDup.
      * exact (fills_resolved generateLinkDescription cfg 0
                 (firstn m items) j link desc E' G).
    + apply patch_keeps; auto.
      exact (fills_rejected generateLinkDescription cfg 0
               (firstn m items) j link firstn_NoDup E' G).
  - destruct (item_beyond j link E L) as [K _].
    destruct (generateLinkDescription j (title link) (url link) cfg);
      exact K.
Qed.

End Items.

(** C2: when the run starts and stop is never pressed, the number of
    publishes is the number of calls that resolve (a rejected call
    publishes nothing); and when every call resolves, there are exactly N
    publishes, the k-th of them is followed at once by progress (k, N), k
    being the number of publishes so far, and the run ends with progress
    (N, N). *)
Theorem bulk_publishes_per_resolved_call generateLinkDescription during
  confirm (p : Props) (st : State) :
  starts confirm p st -> noStop during ->
  let targets := missingLinks (links p) in
  let N := List.length targets in
  let r := handleBulkGenerate generateLinkDescription during confirm p st in
  List.length (published (trace r)) =
    List.length (fills generateLinkDescription (localConfig st) 0 targets)
  /\
  (allResolve generateLinkDescription (localConfig st) 0 targets ->
   List.length (published (trace r)) = N /\
   map fst (reports (trace r)) = published (trace r) /\
   map snd (reports (trace r)) = map (fun k => mkProgress k N) (seq 1 N) /\
   progress (after r) = mkProgress N N).
Proof.
  intros S Q targets N r.
  assert (P : List.length (published (trace r)) =
              List.length
                (fills generateLinkDescription (localConfig st) 0 targets)).
  { subst r; rewrite (handleBulkGenerate_starts _ _ _ _ _ S).
    cbn [trace published].
    rewrite bulkLoop_published, snapshots_length.
    cbn [shouldStopRef setProgress setShouldStop].
    rewrite ran_noStop, firstn_all by exact Q; reflexivity. }
  split; [exact P|intros A].
  split; [rewrite P; apply allResolve_fills, A|].
  subst r; rewrite (handleBulkGenerate_starts _ _ _ _ _ S).
  cbn [trace published reports after progress setIsProcessing].
  split; [apply bulkLoop_reports_fst|split].
  - apply bulkLoop_reports_snd; auto.
  - rewrite bulkLoop_progress; auto.
    destruct S as (_ & M & _); exact M.
Qed.

Lemma bulk_publishes_per_resolved_call_witness :
  let p := Sample.propsOf Sample.cfgKey [Sample.linkA; Sample.linkB] in
  let r :=
    handleBulkGenerate Sample.genFailB Sample.quiet Sample.yes p
      (Sample.opened Sample.cfgKey) in
  starts Sample.yes p (Sample.opened Sample.cfgKey) /\
  noStop Sample.quiet /\
  List.length (published (trace r)) = 1.
Proof.
  cbv zeta.
  assert (S : starts Sample.yes
                (Sample.propsOf Sample.cfgKey [Sample.linkA; Sample.linkB])
                (Sample.opened Sample.cfgKey))
    by (repeat split; discriminate).
  assert (Q : noStop Sample.quiet) by (intros i I; exact I).
  split; [exact S|split; [exact Q|]].
  exact (proj1 (bulk_publishes_per_resolved_call Sample.genFailB
                  Sample.quiet Sample.yes _ _ S Q)).
Defined.

(** C6, as stated, fails: with targets [A, B] and the call for B rejected,
    two attempts complete and one publish is made, so there is not one
    publish per completed attempt. *)
Lemma publish_per_completed_attempt_fails :
  let r :=
    handleBulkGenerate Sample.genFailB Sample.quiet Sample.yes
      (Sample.propsOf Sample.cfgKey [Sample.linkA; Sample.linkB])
      (Sample.opened Sample.cfgKey) in
  trace r =
    [Confirm 2; SetProgress (mkProgress 0 2);
     GenerateLinkDescription "A" "https://a.example" Sample.cfgKey;
     OnUpdateLinks [withDescription Sample.linkA "about A"; Sample.linkB];
     SetProgress (mkProgress 1 2);
     GenerateLinkDescription "B" "https://b.example" Sample.cfgKey;
     ConsoleError "B"] /\
  List.length (attempted (trace r)) = 2 /\
  List.length (published (trace r)) = 1 /\
  List.length (published (trace r)) <> List.length (attempted (trace r)).
Proof.
  cbv zeta; repeat split; try reflexivity.
  vm_compute; discriminate.
Qed.

(** C6, amended: the targets are the links without description, in the
    order of the [links] snapshot; a run that starts attempts a prefix of
    them, in that order; its trace is made of one turn per attempted item,
    in that order, a turn being the call followed by one publish when the
    call resolves and by no publish when it is rejected; so the publishes
    are, in order, the working copy after each resolved call. *)
Theorem bulk_turns_in_snapshot_order generateLinkDescription during confirm
  (p : Props) (st : State) :
  starts confirm p st ->
  let targets := missingLinks (links p) in
  let N := List.length targets in
  let r := handleBulkGenerate generateLinkDescription during confirm p st in
  Subseq targets (links p) /\
  (exists m, m <= N /\
     attempted (trace r) =
       map (callFor (localConfig st)) (firstn m targets) /\
     published (trace r) =
       snapshots (links p)
         (fills generateLinkDescription (localConfig st) 0
            (firstn m targets))) /\
  (exists evs,
     trace r = Confirm N :: SetProgress (mkProgress 0 N) :: evs /\
     Turns generateLinkDescription (localConfig st) N 0 targets (links p)
       evs).
Proof.
  intros S targets N r; split; [apply missing_Subseq|split].
  - destruct (handleBulkGenerate_told generateLinkDescription during
                confirm p st) as (m & L & A & P & _).
    exists m; auto.
  - subst r; rewrite (handleBulkGenerate_starts _ _ _ _ _ S).
    eexists; split; [reflexivity|apply bulkLoop_Turns].
Qed.

Lemma bulk_turns_in_snapshot_order_witness :
  let p :=
    Sample.propsOf Sample.cfgKey
      [Sample.linkA; Sample.linkD; Sample.linkB; Sample.linkC] in
  let r :=
    handleBulkGenerate Sample.genFailB Sample.quiet Sample.yes p
      (Sample.opened Sample.cfgKey) in
  starts Sample.yes p (Sample.opened Sample.cfgKey) /\
  Subseq [Sample.linkA; Sample.linkB; Sample.linkC] (links p) /\
  exists evs,
    trace r = Confirm 3 :: SetProgress (mkProgress 0 3) :: evs /\
    Turns Sample.genFailB Sample.cfgKey 3 0
      [Sample.linkA; Sample.linkB; Sample.linkC] (links p) evs.
Proof.
  cbv zeta.
  assert (S : starts Sample.yes
                (Sample.propsOf Sample.cfgKey
                   [Sample.linkA; Sample.linkD; Sample.linkB; Sample.linkC])
                (Sample.opened Sample.cfgKey))
    by (repeat split; discriminate).
  split; [exact S|].
  destruct (bulk_turns_in_snapshot_order Sample.genFailB Sample.quiet
              Sample.yes _ _ S) as (O & _ & T).
  split; [exact O|exact T].
Defined.

(** C4: with unique ids, in a run that starts: when stop is never pressed
    every target is attempted, whatever calls are rejected; and in the
    owner's final collection, which is the final working copy and has the
    ids of the snapshot, each once, a target whose call resolved (and was
    reached) is the item with its id, title and url whose description is
    the string the call resolved to, while a target whose call was
    rejected, or that was never reached, is there as it was, without
    description. *)
Theorem rejected_call_does_not_abort generateLinkDescription during confirm
  (p : Props) (st : State) :
  starts confirm p st -> NoDup (map id (links p)) ->
  let targets := missingLinks (links p) in
  let r := handleBulkGenerate generateLinkDescription during confirm p st in
  let final := ownerLinks (links p) (trace r) in
  (noStop during ->
   attempted (trace r) = map (callFor (localConfig st)) targets) /\
  final = working r /\
  map id final = map id (links p) /\
  NoDup (map id final) /\
  (forall j link, nth_error targets j = Some link ->
     truthyOpt (description link) = false /\
     match
       generateLinkDescription j (title link) (url link) (localConfig st)
     with
     | Resolved desc =>
       if Nat.ltb j (List.length (attempted (trace r)))
       then In (mkLinkItem (id link) (title link) (url link) (Some desc))
              final
       else In link final
     | Rejected => In link final
     end).
Proof.
  intros S N targets r final.
  assert (W : final = working r) by apply ownerLinks_working.
  rewrite W; subst r final targets.
  rewrite (handleBulkGenerate_starts _ _ _ _ _ S).
  cbn [trace working attempted].
  rewrite bulkLoop_attempted, bulkLoop_working.
  cbn [shouldStopRef setProgress setShouldStop].
  split; [|split; [reflexivity|split; [|split]]].
  - intros Q; rewrite ran_noStop, firstn_all by exact Q; reflexivity.
  - apply patch_sameItems.
  - rewrite (proj1 (patch_sameItems _ _)); exact N.
  - intros j link E; split.
    + eapply missing_falsy, nth_error_In; eauto.
    + rewrite attempted_count by apply ran_le.
      pose proof (item_outcome generateLinkDescription (localConfig st)
                    (missingLinks (links p)) (links p)
                    (ran during 0 (List.length (missingLinks (links p)))
                       false)
                    (missing_NoDup p N)
                    (fun l => Subseq_In _ _ l (missing_Subseq p))
                    j link E) as O.
      exact O.
Qed.

Lemma rejected_call_does_not_abort_witness :
  let p :=
    Sample.propsOf Sample.cfgKey
      [Sample.linkB; Sample.linkD; Sample.linkA] in
  let r :=
    handleBulkGenerate Sample.genFailB Sample.quiet Sample.yes p
      (Sample.opened Sample.cfgKey) in
  starts Sample.yes p (Sample.opened Sample.cfgKey) /\
  NoDup (map id (links p)) /\
  attempted (trace r) =
    [callFor Sample.cfgKey Sample.linkB; callFor Sample.cfgKey Sample.linkA]
  /\ In Sample.linkB (ownerLinks (links p) (trace r))
  /\ In (mkLinkItem "1" "A" "https://a.example" (Some "about A"))
       (ownerLinks (links p) (trace r)).
Proof.
  cbv zeta.
  assert (S : starts Sample.yes
                (Sample.propsOf Sample.cfgKey
                   [Sample.linkB; Sample.linkD; Sample.linkA])
                (Sample.opened Sample.cfgKey))
    by (repeat split; discriminate).
  assert (N : NoDup (map id [Sample.linkB; Sample.linkD; Sample.linkA])).
  { repeat constructor; simpl; intuition discriminate. }
  destruct (rejected_call_does_not_abort Sample.genFailB Sample.quiet
              Sample.yes _ _ S N) as (A & _ & _ & _ & I).
  split; [exact S|split; [exact N|split]].
  - apply A; intros i K; exact K.
  - split.
    + exact (proj2 (I 0 Sample.linkB eq_refl)).
    + exact (proj2 (I 1 Sample.linkA eq_refl)).
Defined.





(** * Further properties of the component *)

(** ** The draft and the effect *)

(** X1: two edits in a row.  On the same field the second one wins; on
    different fields the order does not matter. *)
Theorem handleChange_compose (st : State) (k k' : AIConfigKey)
  (v v' : string) :
  handleChange k v (handleChange k' v' st) =
    if AIConfigKey_eqb k k' then handleChange k v st
    else handleChange k' v' (handleChange k v st).
Proof. destruct k, k'; reflexivity. Qed.

(** X2: a render with new props resets the component exactly when the
    dialog is open after it and either was closed before or got another
    [config] object; the reset forgets all four cells, whatever they held.
    Any other render (only [links] changed, or the dialog is closed after
    it) keeps every cell. *)
Theorem rerender_resets_or_keeps (prev next : Props) (sameConfig : bool)
  (st : State) :
  rerender prev next sameConfig st =
    if isOpen next && (negb (isOpen prev) || negb sameConfig)
    then fresh (config next)
    else st.
Proof.
  unfold rerender, depsChanged, useEffect, fresh.
  destruct (isOpen prev), (isOpen next), sameConfig; reflexivity.
Qed.

(** ** Before the loop *)

(** X3: when the draft has a key and some links lack a description but the
    user declines the confirmation, the handler has asked once, showing
    the number of such links, and has done nothing else: no call, no
    publish, no state cell written. *)
Theorem bulk_declined generateLinkDescription during confirm (p : Props)
  (st : State) :
  truthy (apiKey (localConfig st)) = true ->
  missingLinks (links p) <> [] ->
  confirm (List.length (missingLinks (links p))) = false ->
  let r := handleBulkGenerate generateLinkDescription during confirm p st in
  trace r = [Confirm (List.length (missingLinks (links p)))] /\
  attempted (trace r) = [] /\ published (trace r) = [] /\
  progresses (trace r) = [] /\
  working r = links p /\ after r = st.
Proof.
  intros K M C.
  destruct (handleBulkGenerate_cases generateLinkDescription during confirm
              p st) as [(K' & _)|[(_ & M' & _)|[(_ & _ & E)|(_ & _ & C')]]];
    cbv zeta in *; try congruence.
  rewrite E; repeat split.
Qed.

Lemma bulk_declined_witness :
  let p := Sample.propsOf Sample.cfgKey [Sample.linkA; Sample.linkB] in
  let r :=
    handleBulkGenerate Sample.genAll Sample.quiet Sample.no p
      (Sample.opened Sample.cfgKey) in
  trace r = [Confirm 2] /\ after r = Sample.opened Sample.cfgKey.
Proof.
  cbv zeta.
  assert (M : missingLinks [Sample.linkA; Sample.linkB] <> [])
    by discriminate.
  destruct (bulk_declined Sample.genAll Sample.quiet Sample.no
              (Sample.propsOf Sample.cfgKey [Sample.linkA; Sample.linkB])
              (Sample.opened Sample.cfgKey) eq_refl M eq_refl)
    as (T & _ & _ & _ & _ & A).
  split; [exact T|exact A].
Defined.

(** X4: what a run does depends on the component state through the draft
    only.  Two states with the same draft give the same trace and the same
    working copy, and when a call was made also the same final state: a
    stop flag, a processing flag or a progress left by an earlier run has
    no influence. *)
Theorem bulk_depends_on_draft_only generateLinkDescription during confirm
  (p : Props) (st st' : State) :
  localConfig st = localConfig st' ->
  let r := handleBulkGenerate generateLinkDescription during confirm p st in
  let r' :=
    handleBulkGenerate generateLinkDescription during confirm p st' in
  trace r = trace r' /\ working r = working r' /\
  (attempted (trace r) <> [] -> after r = after r').
Proof.
  intros E r r'; subst r r'; unfold handleBulkGenerate.
  rewrite <- E.
  destruct (truthy (apiKey (localConfig st))); simpl negb; cbv iota;
    [|repeat split; simpl; congruence].
  destruct (Nat.eqb (List.length (missingLinks (links p))) 0);
    [repeat split; simpl; congruence|].
  destruct (confirm (List.length (missingLinks (links p)))); simpl negb;
    cbv iota; [|repeat split; simpl; congruence].
  assert (S : setProgress (mkProgress 0 (List.length (missingLinks (links p))))
                (setShouldStop false (setIsProcessing true st)) =
              setProgress (mkProgress 0 (List.length (missingLinks (links p))))
                (setShouldStop false (setIsProcessing true st'))).
  { unfold setProgress, setShouldStop, setIsProcessing; simpl.
    rewrite E; reflexivity. }
  cbv zeta; rewrite S; repeat split.
Qed.

Lemma bulk_depends_on_draft_only_witness :
  let p := Sample.propsOf Sample.cfgKey [Sample.linkA; Sample.linkB] in
  trace (handleBulkGenerate Sample.genAll Sample.quiet Sample.yes p
           (Sample.leftover Sample.cfgKey)) =
  trace (handleBulkGenerate Sample.genAll Sample.quiet Sample.yes p
           (Sample.opened Sample.cfgKey)) /\
  List.length
    (attempted
       (trace (handleBulkGenerate Sample.genAll Sample.quiet Sample.yes p
                 (Sample.leftover Sample.cfgKey)))) = 2.
Proof.
  cbv zeta; split; [|reflexivity].
  exact (proj1
    (bulk_depends_on_draft_only Sample.genAll Sample.quiet Sample.yes
       (Sample.propsOf Sample.cfgKey [Sample.linkA; Sample.linkB])
       (Sample.leftover Sample.cfgKey) (Sample.opened Sample.cfgKey)
       eq_refl)).
Defined.

(** ** Stop, and the effect undoing it *)

Lemma ran_flagDown during i len :
  flagDown during -> ran during i len false = len.
Proof.
  intros D; revert i; induction len as [|len IH]; intros i; simpl;
    [reflexivity|].
  rewrite D, IH; reflexivity.
Qed.

Lemma flagAfter_app w w' b :
  flagAfter (w ++ w') b = flagAfter w' (flagAfter w b).
Proof. unfold flagAfter; apply fold_left_app. Qed.

(** X5: the loop reads the stop flag only between two calls.  When the
    flag is down each time a call settles - because stop was not pressed
    during that call, or because after the press the effect ran with the
    dialog open and lowered the flag again - the run attempts every
    target; a stop undone in this way is lost. *)
Theorem stop_lost_when_flag_down_again generateLinkDescription during
  confirm (p : Props) (st : State) :
  starts confirm p st -> flagDown during ->
  let r := handleBulkGenerate generateLinkDescription during confirm p st in
  attempted (trace r) =
    map (callFor (localConfig st)) (missingLinks (links p)) /\
  (forall w q b, isOpen q = true ->
     flagAfter (w ++ [PressStop; RunEffect q]) b = false).
Proof.
  intros S D r; split.
  - subst r; rewrite (handleBulkGenerate_starts _ _ _ _ _ S).
    cbn [trace attempted]; rewrite bulkLoop_attempted.
    cbn [shouldStopRef setProgress setShouldStop].
    rewrite ran_flagDown, firstn_all by exact D; reflexivity.
  - intros w q b O; rewrite flagAfter_app; simpl; rewrite O; reflexivity.
Qed.

Lemma stop_lost_when_flag_down_again_witness :
  let p :=
    Sample.propsOf Sample.cfgKey
      [Sample.linkA; Sample.linkB; Sample.linkC] in
  In PressStop (Sample.stopThenEffect 0) /\
  attempted
    (trace (handleBulkGenerate Sample.genAll Sample.stopThenEffect
              Sample.yes p (Sample.opened Sample.cfgKey))) =
  [callFor Sample.cfgKey Sample.linkA; callFor Sample.cfgKey Sample.linkB;
   callFor Sample.cfgKey Sample.linkC].
Proof.
  cbv zeta; split; [left; reflexivity|].
  assert (S : starts Sample.yes
                (Sample.propsOf Sample.cfgKey
                   [Sample.linkA; Sample.linkB; Sample.linkC])
                (Sample.opened Sample.cfgKey))
    by (repeat split; discriminate).
  assert (D : flagDown Sample.stopThenEffect).
  { intros [|i]; reflexivity. }
  exact (proj1 (stop_lost_when_flag_down_again Sample.genAll
                  Sample.stopThenEffect Sample.yes _ _ S D)).
Defined.

(** ** What a trace of turns looks like *)

Section TurnsFacts.

Variable generateLinkDescription :
  nat -> string -> string -> AIConfig -> Outcome.
Variable cfg : AIConfig.
Variable n : nat.

Local Abbreviation turns := (Turns generateLinkDescription cfg n).

Lemma Turns_counts i rest cl evs :
  turns i rest cl evs ->
  List.length (attempted evs) =
    List.length (published evs) + List.length (logged evs) /\
  List.length (attempted evs) <= List.length rest.
Proof.
  induction 1 as [i rest cl|i link rest cl desc evs G T [IH1 IH2]
                 |i link rest cl evs G T [IH1 IH2]]; simpl; lia.
Qed.

Lemma Turns_silent i rest cl evs :
  turns i rest cl evs ->
  saved evs = [] /\ alerts evs = [] /\ ~ In OnClose evs.
Proof.
  induction 1 as [i rest cl|i link rest cl desc evs G T (IH1 & IH2 & IH3)
                 |i link rest cl evs G T (IH1 & IH2 & IH3)]; simpl;
    repeat split; auto; intuition discriminate.
Qed.

Lemma Turns_progresses i rest cl evs :
  turns i rest cl evs -> i + List.length rest = n ->
  Forall (fun q => total q = n /\ i < current q <= n) (progresses evs) /\
  StronglySorted lt (map current (progresses evs)).
Proof.
  induction 1 as [i rest cl|i link rest cl desc evs G T IH
                 |i link rest cl evs G T IH]; intros L; simpl in *.
  - split; constructor.
  - destruct IH as [F S]; [lia|]; split.
    + constructor; [simpl; lia|].
      eapply Forall_impl; [|exact F]; simpl; intros q; lia.
    + constructor; [exact S|].
      apply Forall_map; eapply Forall_impl; [|exact F]; simpl.
      intros q; lia.
  - destruct IH as [F S]; [lia|]; split; [|exact S].
    eapply Forall_impl; [|exact F]; simpl; intros q; lia.
Qed.

End TurnsFacts.

(** X6: in every run each attempt ends in exactly one of two ways, a
    publish or an error log, so the attempts are as many as the publishes
    and the logged errors together; and there are never more attempts than
    links lacking a description (no item is tried twice). *)
Theorem bulk_attempt_ends_in_publish_or_log generateLinkDescription during
  confirm (p : Props) (st : State) :
  let r := handleBulkGenerate generateLinkDescription during confirm p st in
  List.length (attempted (trace r)) =
    List.length (published (trace r)) + List.length (logged (trace r)) /\
  List.length (attempted (trace r)) <=
    List.length (missingLinks (links p)).
Proof.
  destruct (handleBulkGenerate_cases generateLinkDescription during confirm
              p st) as [(_ & E)|[(_ & _ & E)|[(_ & _ & E)|S]]];
    cbv zeta in *; try (rewrite E; simpl; lia).
  rewrite (handleBulkGenerate_starts _ _ _ _ _ S).
  cbn [trace attempted published logged].
  eapply Turns_counts, bulkLoop_Turns.
Qed.

(** X7: in every run the progress values set have the number of targets
    as total, a current between 0 and that total, and currents that
    strictly increase from one to the next: what the handler reports never
    goes back and never passes the total. *)
Theorem bulk_progress_bounded_increasing generateLinkDescription during
  confirm (p : Props) (st : State) :
  let r := handleBulkGenerate generateLinkDescription during confirm p st in
  let N := List.length (missingLinks (links p)) in
  Forall (fun q => total q = N /\ current q <= N) (progresses (trace r)) /\
  StronglySorted lt (map current (progresses (trace r))).
Proof.
  destruct (handleBulkGenerate_cases generateLinkDescription during confirm
              p st) as [(_ & E)|[(_ & _ & E)|[(_ & _ & E)|S]]];
    cbv zeta in *; try (rewrite E; simpl; split; constructor).
  rewrite (handleBulkGenerate_starts _ _ _ _ _ S).
  cbn [trace progresses map current].
  destruct (Turns_progresses _ _ _ _ _ _ _
              (bulkLoop_Turns generateLinkDescription during
                 (localConfig st) (List.length (missingLinks (links p))) 0
                 (missingLinks (links p))
                 (setProgress
                    (mkProgress 0 (List.length (missingLinks (links p))))
                    (setShouldStop false (setIsProcessing true st)))
                 (links p)) eq_refl) as [F S'].
  split.
  - constructor; [simpl; lia|].
    eapply Forall_impl; [|exact F]; simpl; intros q; lia.
  - constructor; [exact S'|].
    apply Forall_map; eapply Forall_impl; [|exact F]; simpl; intros q; lia.
Qed.

(** X8: a run never saves the configuration and never closes the dialog,
    and a notice and a call of the generation service never occur in the
    same run. *)
Theorem bulk_never_saves_or_closes generateLinkDescription during confirm
  (p : Props) (st : State) :
  let r := handleBulkGenerate generateLinkDescription during confirm p st in
  saved (trace r) = [] /\ ~ In OnClose (trace r) /\
  (alerts (trace r) = [] \/ attempted (trace r) = []).
Proof.
  destruct (handleBulkGenerate_cases generateLinkDescription during confirm
              p st) as [(_ & E)|[(_ & _ & E)|[(_ & _ & E)|S]]];
    cbv zeta in *;
    try (rewrite E; simpl; repeat split; auto; intuition discriminate).
  rewrite (handleBulkGenerate_starts _ _ _ _ _ S).
  cbn [trace saved alerts].
  destruct (Turns_silent _ _ _ _ _ _ _
              (bulkLoop_Turns generateLinkDescription during
                 (localConfig st) (List.length (missingLinks (links p))) 0
                 (missingLinks (links p))
                 (setProgress
                    (mkProgress 0 (List.length (missingLinks (links p))))
                    (setShouldStop false (setIsProcessing true st)))
                 (links p))) as (A & B & C).
  repeat split; auto.
  simpl; intuition discriminate.
Qed.

(** X9: in every run the final working copy is the last collection
    published, or the [links] prop when nothing was published: no update
    of the working copy is left unpublished. *)
Theorem bulk_working_copy_is_last_publish generateLinkDescription during
  confirm (p : Props) (st : State) :
  let r := handleBulkGenerate generateLinkDescription during confirm p st in
  working r = last (published (trace r)) (links p).
Proof.
  cbv zeta; symmetry.
  apply (ownerLinks_working generateLinkDescription during confirm p st).
Qed.

(** ** The collection a run leaves *)

Lemma patch_map cl fs : patch cl fs = map (patchItem fs) cl.
Proof.
  revert cl; induction fs as [|f fs IH]; intros cl; simpl.
  - symmetry; apply map_id.
  - rewrite IH; unfold updateLink; rewrite map_map; reflexivity.
Qed.

Lemma patchItem_id fs l : id (patchItem fs l) = id l.
Proof.
  revert l; induction fs as [|f fs IH]; intros l; simpl; [reflexivity|].
  unfold patchItem in IH; rewrite IH.
  destruct (String.eqb (id l) (id (fst f))); reflexivity.
Qed.

Lemma patchItem_truthy fs l :
  Forall (fun f => truthy (snd f) = true) fs ->
  truthyOpt (description l) = true \/ In (id l) (map fillId fs) ->
  truthyOpt (description (patchItem fs l)) = true.
Proof.
  revert l; induction fs as [|f fs IH]; intros l F H; simpl.
  - destruct H as [H|[]]; exact H.
  - inversion F as [|f' fs' Tf Tfs]; subst.
    unfold patchItem in IH; apply IH; [exact Tfs|].
    destruct (String.eqb_spec (id l) (id (fst f))) as [E|E].
    + left; exact Tf.
    + destruct H as [H|[H|H]]; [left; exact H| |right; exact H].
      unfold fillId in H; congruence.
Qed.

Lemma filter_none {A : Type} (f : A -> bool) (l : list A) :
  (forall x, In x l -> f x = false) -> filter f l = [].
Proof.
  induction l as [|x l IH]; intros H; simpl; [reflexivity|].
  rewrite (H x (or_introl eq_refl)); apply IH.
  intros y I; apply H; right; exact I.
Qed.

Lemma allDescribe_tail generateLinkDescription cfg i link items :
  allDescribe generateLinkDescription cfg i (link :: items) ->
  allDescribe generateLinkDescription cfg (S i) items.
Proof.
  intros A j l E; destruct (A (S j) l E) as (d & G & T); exists d.
  replace (S i + j) with (i + S j) by lia; auto.
Qed.

Lemma allDescribe_fills generateLinkDescription cfg i items :
  allDescribe generateLinkDescription cfg i items ->
  map fst (fills generateLinkDescription cfg i items) = items /\
  Forall (fun f => truthy (snd f) = true)
    (fills generateLinkDescription cfg i items).
Proof.
  revert i; induction items as [|link items IH]; intros i A; simpl;
    [split; constructor|].
  destruct (A 0 link eq_refl) as (d & G & T); rewrite Nat.add_0_r in G.
  rewrite G; destruct (IH (S i)) as [M F];
    [eapply allDescribe_tail; eauto|].
  simpl; split; [f_equal; exact M|constructor; [exact T|exact F]].
Qed.

Lemma NoDup_map_same {A B : Type} (f : A -> B) (l : list A) (a b : A) :
  NoDup (map f l) -> In a l -> In b l -> f a = f b -> a = b.
Proof.
  induction l as [|x l IH]; intros N Ia Ib E; [destruct Ia|].
  simpl in N; inversion N as [|k ks Nk Nks]; subst.
  destruct Ia as [->|Ia], Ib as [->|Ib]; auto.
  - destruct Nk; rewrite E; apply in_map, Ib.
  - destruct Nk; rewrite <- E; apply in_map, Ia.
Qed.

(** X10: after a run that starts, is not stopped, and in which every call
    resolves to a string that is not empty, no link of the final working
    copy lacks a description; so a next run on that collection, with a key
    in the draft, ends at the notice that all links are described and
    makes no call. *)
Theorem bulk_second_run_finds_nothing generateLinkDescription during confirm
  generateLinkDescription' during' confirm' (p : Props) (st st' : State) :
  starts confirm p st -> noStop during ->
  allDescribe generateLinkDescription (localConfig st) 0
    (missingLinks (links p)) ->
  truthy (apiKey (localConfig st')) = true ->
  let r := handleBulkGenerate generateLinkDescription during confirm p st in
  let r' :=
    handleBulkGenerate generateLinkDescription' during' confirm'
      (mkProps (isOpen p) (config p) (working r)) st' in
  missingLinks (working r) = [] /\
  trace r' = [Alert alertNothingMissing].
Proof.
  intros S Q A K r r'.
  assert (M : missingLinks (working r) = []).
  { subst r; rewrite (handleBulkGenerate_starts _ _ _ _ _ S).
    cbn [working]; rewrite bulkLoop_working.
    cbn [shouldStopRef setProgress setShouldStop].
    rewrite ran_noStop, firstn_all by exact Q.
    destruct (allDescribe_fills _ _ _ _ A) as [F T].
    rewrite patch_map; apply filter_none; intros l' I.
    apply in_map_iff in I; destruct I as (l & <- & I).
    apply negb_false_iff, patchItem_truthy; [exact T|].
    destruct (truthyOpt (description l)) eqn:D; [left; reflexivity|right].
    replace (map fillId
               (fills generateLinkDescription (localConfig st) 0
                  (missingLinks (links p))))
      with (map id
              (map fst
                 (fills generateLinkDescription (localConfig st) 0
                    (missingLinks (links p)))))
      by (rewrite map_map; reflexivity).
    rewrite F; apply in_map, filter_In; split; [exact I|].
    rewrite D; reflexivity. }
  split; [exact M|].
  destruct (handleBulkGenerate_cases generateLinkDescription' during'
              confirm' (mkProps (isOpen p) (config p) (working r)) st')
    as [(K' & _)|[(_ & _ & E)|[(_ & M' & _)|(_ & M' & _)]]];
    cbv zeta in *; simpl links in *; try congruence.
  fold r' in E; rewrite E; reflexivity.
Qed.

Lemma bulk_second_run_finds_nothing_witness :
  let p := Sample.propsOf Sample.cfgKey [Sample.linkA; Sample.linkD] in
  let r :=
    handleBulkGenerate Sample.genAll Sample.quiet Sample.yes p
      (Sample.opened Sample.cfgKey) in
  working r = [withDescription Sample.linkA "about A"; Sample.linkD] /\
  trace
    (handleBulkGenerate Sample.genAll Sample.quiet Sample.yes
       (mkProps true Sample.cfgKey (working r))
       (Sample.opened Sample.cfgKey)) = [Alert alertNothingMissing].
Proof.
  cbv zeta; split; [reflexivity|].
  assert (S : starts Sample.yes
                (Sample.propsOf Sample.cfgKey [Sample.linkA; Sample.linkD])
                (Sample.opened Sample.cfgKey))
    by (repeat split; discriminate).
  assert (Q : noStop Sample.quiet) by (intros i I; exact I).
  assert (A : allDescribe Sample.genAll Sample.cfgKey 0
                (missingLinks [Sample.linkA; Sample.linkD])).
  { intros j link E; eexists; split; reflexivity. }
  exact (proj2
    (bulk_second_run_finds_nothing Sample.genAll Sample.quiet Sample.yes
       Sample.genAll Sample.quiet Sample.yes
       (Sample.propsOf Sample.cfgKey [Sample.linkA; Sample.linkD])
       (Sample.opened Sample.cfgKey) (Sample.opened Sample.cfgKey)
       S Q A eq_refl)).
Defined.

Lemma started_item_outcome generateLinkDescription during confirm
  (p : Props) (st : State) (j : nat) (link : LinkItem) :
  starts confirm p st -> NoDup (map id (links p)) ->
  nth_error (missingLinks (links p)) j = Some link ->
  let r := handleBulkGenerate generateLinkDescription during confirm p st in
  match
    generateLinkDescription j (title link) (url link) (localConfig st)
  with
  | Resolved desc =>
    if Nat.ltb j (List.length (attempted (trace r)))
    then In (withDescription link desc) (working r)
    else In link (working r)
  | Rejected => In link (working r)
  end.
Proof.
  intros S N E r; subst r.
  rewrite (handleBulkGenerate_starts _ _ _ _ _ S).
  cbn [trace working attempted].
  rewrite bulkLoop_attempted, bulkLoop_working.
  cbn [shouldStopRef setProgress setShouldStop].
  rewrite attempted_count by apply ran_le.
  apply item_outcome; auto.
  - apply missing_NoDup, N.
  - intros l; apply Subseq_In, missing_Subseq.
Qed.

(** X11: an empty answer does not count as a description.  With unique
    ids, when the call for a target that the run reaches resolves to the
    empty string, the final working copy holds that item with the empty
    description, and the item is again among the links lacking a
    description, so a next run asks for it again. *)
Theorem bulk_empty_answer_stays_missing generateLinkDescription during
  confirm (p : Props) (st : State) (j : nat) (link : LinkItem) :
  starts confirm p st -> NoDup (map id (links p)) ->
  nth_error (missingLinks (links p)) j = Some link ->
  let r := handleBulkGenerate generateLinkDescription during confirm p st in
  j < List.length (attempted (trace r)) ->
  generateLinkDescription j (title link) (url link) (localConfig st)
    = Resolved "" ->
  In (mkLinkItem (id link) (title link) (url link) (Some "")) (working r)
  /\
  In (mkLinkItem (id link) (title link) (url link) (Some ""))
    (missingLinks (working r)).
Proof.
  intros S N E r L G.
  assert (I : In (mkLinkItem (id link) (title link) (url link) (Some ""))
                (working r)).
  { pose proof (started_item_outcome generateLinkDescription during confirm
                  p st j link S N E) as O.
    cbv zeta in O; fold r in O; rewrite G in O.
    destruct (Nat.ltb_spec j (List.length (attempted (trace r))));
      [exact O|lia]. }
  split; [exact I|].
  apply filter_In; split; [exact I|reflexivity].
Qed.

Lemma bulk_empty_answer_stays_missing_witness :
  let p := Sample.propsOf Sample.cfgKey [Sample.linkA; Sample.linkB] in
  let r :=
    handleBulkGenerate Sample.genEmptyB Sample.quiet Sample.yes p
      (Sample.opened Sample.cfgKey) in
  List.length (published (trace r)) = 2 /\
  In (mkLinkItem "2" "B" "https://b.example" (Some ""))
    (missingLinks (working r)).
Proof.
  cbv zeta; split; [reflexivity|].
  assert (S : starts Sample.yes
                (Sample.propsOf Sample.cfgKey [Sample.linkA; Sample.linkB])
                (Sample.opened Sample.cfgKey))
    by (repeat split; discriminate).
  assert (N : NoDup (map id [Sample.linkA; Sample.linkB])).
  { repeat constructor; simpl; intuition discriminate. }
  exact (proj2
    (bulk_empty_answer_stays_missing Sample.genEmptyB Sample.quiet
       Sample.yes
       (Sample.propsOf Sample.cfgKey [Sample.linkA; Sample.linkB])
       (Sample.opened Sample.cfgKey) 1 Sample.linkB S N eq_refl
       (le_n 2) eq_refl)).
Defined.

(** X12: with unique ids, a link that has a description when the run is
    asked for is not a target, and it is in every published collection
    and in the final working copy as it was: a run never overwrites a
    description that was there. *)
Theorem bulk_keeps_described_links generateLinkDescription during confirm
  (p : Props) (st : State) (l : LinkItem) :
  NoDup (map id (links p)) -> In l (links p) ->
  truthyOpt (description l) = true ->
  let r := handleBulkGenerate generateLinkDescription during confirm p st in
  ~ In l (missingLinks (links p)) /\
  Forall (In l) (published (trace r)) /\
  In l (working r).
Proof.
  intros N I T r.
  assert (M : ~ In l (missingLinks (links p))).
  { intros K; apply missing_falsy in K; congruence. }
  assert (D : ~ In (id l) (map id (missingLinks (links p)))).
  { intros K; apply in_map_iff in K; destruct K as (l' & E & K).
    apply M; replace l with l'; [exact K|].
    apply (NoDup_map_same id (links p)); auto.
    eapply Subseq_In; [apply missing_Subseq|exact K]. }
  destruct (handleBulkGenerate_told generateLinkDescription during confirm
              p st) as (m & _ & _ & P & W).
  fold r in P, W; rewrite P, W.
  assert (F : ~ In (id l)
                (map fillId
                   (fills generateLinkDescription (localConfig st) 0
                      (firstn m (missingLinks (links p)))))).
  { intros K; apply D.
    eapply Subseq_In; [apply Subseq_map, (Subseq_firstn m)|].
    eapply Subseq_In; [apply fills_ids|exact K]. }
  split; [exact M|split].
  - apply snapshots_keep; assumption.
  - apply patch_keeps; assumption.
Qed.

Lemma bulk_keeps_described_links_witness :
  let p :=
    Sample.propsOf Sample.cfgKey
      [Sample.linkA; Sample.linkD; Sample.linkB] in
  let r :=
    handleBulkGenerate Sample.genAll Sample.quiet Sample.yes p
      (Sample.opened Sample.cfgKey) in
  List.length (published (trace r)) = 2 /\
  Forall (In Sample.linkD) (published (trace r)) /\
  In Sample.linkD (working r).
Proof.
  cbv zeta; split; [reflexivity|].
  assert (N : NoDup (map id [Sample.linkA; Sample.linkD; Sample.linkB])).
  { repeat constructor; simpl; intuition discriminate. }
  exact (proj2
    (bulk_keeps_described_links Sample.genAll Sample.quiet Sample.yes
       (Sample.propsOf Sample.cfgKey
          [Sample.linkA; Sample.linkD; Sample.linkB])
       (Sample.opened Sample.cfgKey) Sample.linkD N
       (or_intror (or_introl eq_refl)) eq_refl)).
Defined.
